(** * Verification of the PyShiny temperature / penguin dashboard

    Shallow embedding of [dashboard/app.py]: the two bounded history
    buffers ([collections.deque] with [maxlen]), the primary feed
    [reactive_calc_combined], the secondary feed [reactive_calc_generate]
    and the trend computation of [display_plot].

    Conventions of the embedding.
    - Python floats are idealised as rationals ([Q]); a float that is not a
      finite number (nan, inf) is the value [NonFinite] of [float64].
      Rounding errors of binary floating point are not modelled.
    - Python exceptions are the [Raise] case of [result].
    - The module-level reactive values are the fields of [AppState]; every
      function that mutates them takes the state and returns the new one.
    - What the program reads from its environment on a tick (the random
      draw, the wall clock, the penguin data set and pandas' answer on it)
      is an explicit input of that tick. *)

From Stdlib Require Import String ZArith QArith Qround Qabs Lia Lqa Bool Arith List.
Import ListNotations.

Set Implicit Arguments.
Close Scope Q_scope.

(** ** Exceptions *)

Inductive exn : Type :=
| ValueError (msg : string)
| KeyError (key : string)
| OtherException (msg : string).

Inductive result (A : Type) : Type :=
| Ok (a : A)
| Raise (e : exn).

Arguments Ok {A} a.
Arguments Raise {A} e.

Definition is_ok {A} (r : result A) : bool :=
  match r with Ok _ => true | Raise _ => false end.

(** ** [collections.deque] with a [maxlen] *)

Module Deque.

Record deque (A : Type) : Type := mk { maxlen : nat; items : list A }.

Arguments mk {A} maxlen items.

(** [deque(maxlen=n)] *)
Definition empty {A} (n : nat) : deque A := mk n [].

Definition len {A} (d : deque A) : nat := length (items d).

(** [d.append(x)]: the item is added on the right; when the deque is then
    longer than [maxlen], one item is removed on the left. *)
Definition append {A} (d : deque A) (x : A) : deque A :=
  let items' := items d ++ [x] in
  mk (maxlen d)
     (if maxlen d <? length items' then tl items' else items').

(** appending a sequence of items, left to right *)
Definition extend {A} (d : deque A) (xs : list A) : deque A :=
  fold_left append xs d.

(** the representation invariant of a bounded deque *)
Definition bounded {A} (d : deque A) : Prop := len d <= maxlen d.

End Deque.

Import Deque.

(** ** Constants of the module *)

Definition UPDATE_INTERVAL_SECS : Z := 10.
Definition DEQUE_SIZE : nat := 5.
Definition DEQUE_SIZE_TWO : nat := 10.

(** ** Numbers: [random.uniform] and [round] *)

(** [random.random()]: a 53-bit integer of the generator, scaled to [0, 1). *)
Definition random_unit (bits53 : Z) : Q :=
  Qmake (bits53 mod 2 ^ 53) (2 ^ 53).

(** [random.uniform(a, b)] is [a + (b - a) * random()]. *)
Definition uniform (a b : Q) (bits53 : Z) : Q :=
  (a + (b - a) * random_unit bits53)%Q.

(** Rounding to the nearest integer, ties to the even one. *)
Definition round_half_even (q : Q) : Z :=
  let f := Qfloor q in
  match (q - inject_Z f ?= 1 # 2)%Q with
  | Lt => f
  | Gt => (f + 1)%Z
  | Eq => if Z.even f then f else (f + 1)%Z
  end.

(** [round(x, ndigits)] on a float: the decimal with [ndigits] digits
    nearest to [x]. *)
Definition py_round (x : Q) (ndigits : nat) : Q :=
  let scale := inject_Z (10 ^ Z.of_nat ndigits) in
  (inject_Z (round_half_even (x * scale)) / scale)%Q.

(** ** Readings and the primary feed *)

(** The dictionary [{"temp": temp, "timestamp": timestamp}]. *)
Record Reading : Type := { temp : Q; timestamp : string }.

(** [pd.DataFrame(deque_snapshot)] for a deque of readings: one column per
    key, one row per reading, in the deque's order. *)
Record DataFrame : Type := {
  col_temp : list Q;
  col_timestamp : list string
}.

Definition DataFrame_of (rows : list Reading) : DataFrame :=
  {| col_temp := map temp rows; col_timestamp := map timestamp rows |}.

(** [len(df)]: the number of rows *)
Definition df_len (df : DataFrame) : nat := length (col_temp df).

(** [df.empty] *)
Definition df_empty (df : DataFrame) : bool := (df_len df =? 0)%nat.

(** One row of the Palmer penguins data set (the columns the source lists). *)
Record Penguin : Type := {
  species : string;
  island : string;
  bill_length_mm : option Q;
  bill_depth_mm : option Q;
  flipper_length_mm : option Q;
  body_mass_g : option Q;
  sex : string
}.

(** The module-level reactive values. *)
Record AppState : Type := {
  reactive_value_wrapper : deque Reading;
  reactive_value_wrapper_two : deque (list Penguin)
}.

Definition initial_state : AppState :=
  {| reactive_value_wrapper := Deque.empty DEQUE_SIZE;
     reactive_value_wrapper_two := Deque.empty DEQUE_SIZE_TWO |}.

(** What a tick of the primary feed reads from its environment. *)
Record TickInput : Type := {
  random_bits : Z;      (* the generator's draw behind [random.uniform] *)
  now : string          (* [datetime.now().strftime("%Y-%m-%d %H:%M:%S")] *)
}.

(** The value [reactive_calc_combined] returns. *)
Record Combined : Type := {
  deque_snapshot : deque Reading;
  df : DataFrame;
  latest_dictionary_entry : Reading
}.

Definition new_temp (inp : TickInput) : Q :=
  py_round (uniform (-18) (-16) (random_bits inp))%Q 1.

Definition new_dictionary_entry (inp : TickInput) : Reading :=
  {| temp := new_temp inp; timestamp := now inp |}.

(** [reactive_calc_combined]: the snapshot it returns is the deque held by
    [reactive_value_wrapper] itself, not a copy.  [reactive.invalidate_later]
    only schedules the next tick; a tick is one run of this body. *)
Definition reactive_calc_combined (inp : TickInput) (st : AppState)
  : Combined * AppState :=
  let entry := new_dictionary_entry inp in
  let st' := {| reactive_value_wrapper := append (reactive_value_wrapper st) entry;
                reactive_value_wrapper_two := reactive_value_wrapper_two st |} in
  let snapshot := reactive_value_wrapper st' in
  ({| deque_snapshot := snapshot;
      df := DataFrame_of (items snapshot);
      latest_dictionary_entry := entry |}, st').

(** ** The secondary feed *)

(** State threaded through code that may raise: a mutation made before the
    exception stays made. *)
Definition M (A : Type) : Type := AppState -> result A * AppState.

Definition ret {A} (a : A) : M A := fun st => (Ok a, st).

Definition bind {A B} (m : M A) (k : A -> M B) : M B :=
  fun st =>
    match m st with
    | (Ok a, st') => k a st'
    | (Raise e, st') => (Raise e, st')
    end.

(** a call into a library that answers or raises, and leaves the state alone *)
Definition call {A} (r : result A) : M A := fun st => (r, st).

(** [try: body except Exception as e: handler] *)
Definition try_except {A} (body : M A) (handler : exn -> M A) : M A :=
  fun st =>
    match body st with
    | (Ok a, st') => (Ok a, st')
    | (Raise e, st') => handler e st'
    end.

Declare Scope py_scope.
Delimit Scope py_scope with py.
Notation "x <- m ;; k" := (bind m (fun x => k))
  (at level 61, m at next level, right associativity) : py_scope.
Notation "m ;;; k" := (bind m (fun _ => k))
  (at level 61, right associativity) : py_scope.

(** A rendered table: what [pd.DataFrame(...)] holds for the secondary feed. *)
Record Table : Type := { tbl_columns : list string; tbl_rows : list (list string) }.

(** [pd.DataFrame()] *)
Definition empty_table : Table := {| tbl_columns := []; tbl_rows := [] |}.

(** What a tick of the secondary feed gets from the libraries it calls. *)
Record PenguinEnv : Type := {
  (* [palmerpenguins.load_penguins()] *)
  load_penguins : result (list Penguin);
  (* [penguins_df.sample(n=...)], the rows it draws *)
  sample : list Penguin -> nat -> result (list Penguin);
  (* [pd.DataFrame(deque_snapshot)] followed by [df.assign(...)] *)
  typed_frame : list (list Penguin) -> result Table
}.

(** The value [reactive_calc_generate] returns. *)
Record Generated : Type := {
  gen_snapshot : list (list Penguin);
  gen_df : Table;
  latest_random_rows_dict : list Penguin
}.

(** [return [], pd.DataFrame(), []] *)
Definition empty_generated : Generated :=
  {| gen_snapshot := []; gen_df := empty_table; latest_random_rows_dict := [] |}.

(** [reactive_value_wrapper_two.get()] *)
Definition get_wrapper_two : M (deque (list Penguin)) :=
  fun st => (Ok (reactive_value_wrapper_two st), st).

(** [deque_snapshot.append(rows)] on the deque held by the reactive value *)
Definition append_wrapper_two (rows : list Penguin) : M unit :=
  fun st =>
    (Ok tt, {| reactive_value_wrapper := reactive_value_wrapper st;
               reactive_value_wrapper_two :=
                 append (reactive_value_wrapper_two st) rows |}).

(** the body of the [try] block *)
Definition generate_try (env : PenguinEnv) : M Generated :=
  (penguins_df <- call (load_penguins env) ;;
   let num_of_rows := 5 in
   new_random_rows <- call (sample env penguins_df num_of_rows) ;;
   let new_random_rows_dict := new_random_rows in
   append_wrapper_two new_random_rows_dict ;;;
   deque_snapshot <- get_wrapper_two ;;
   df <- call (typed_frame env (items deque_snapshot)) ;;
   ret {| gen_snapshot := items deque_snapshot;
          gen_df := df;
          latest_random_rows_dict := new_random_rows_dict |})%py.

Definition reactive_calc_generate (env : PenguinEnv) : M Generated :=
  try_except (generate_try env) (fun _ => ret empty_generated).

(** ** Ticks *)

Inductive Tick : Type :=
| PrimaryTick (inp : TickInput)
| SecondaryTick (env : PenguinEnv).

Definition step (st : AppState) (t : Tick) : AppState :=
  match t with
  | PrimaryTick inp => snd (reactive_calc_combined inp st)
  | SecondaryTick env => snd (reactive_calc_generate env st)
  end.

Definition run (ticks : list Tick) (st : AppState) : AppState :=
  fold_left step ticks st.

(** ** The trend computation *)

(** A float: a finite number, or one that is not (nan, inf, -inf). *)
Inductive float64 : Type :=
| Finite (q : Q)
| NonFinite.

Definition fadd (a b : float64) : float64 :=
  match a, b with Finite x, Finite y => Finite (x + y) | _, _ => NonFinite end.

Definition fsub (a b : float64) : float64 :=
  match a, b with Finite x, Finite y => Finite (x - y) | _, _ => NonFinite end.

Definition fmul (a b : float64) : float64 :=
  match a, b with Finite x, Finite y => Finite (x * y) | _, _ => NonFinite end.

(** numpy's division: dividing by zero gives nan or an infinity *)
Definition fdiv (a b : float64) : float64 :=
  match a, b with
  | Finite x, Finite y => if Qeq_bool y 0 then NonFinite else Finite (x / y)
  | _, _ => NonFinite
  end.

Definition Q_of_nat (n : nat) : Q := inject_Z (Z.of_nat n).

Definition Qsum (xs : list Q) : Q := fold_right Qplus 0%Q xs.

(** [np.mean], on a non-empty array *)
Definition np_mean (xs : list Q) : Q := (Qsum xs / Q_of_nat (length xs))%Q.

(** [np.amax] and [np.amin], on a non-empty array *)
Definition np_amax (xs : list Q) : Q :=
  fold_left (fun m a => if Qle_bool m a then a else m) (tl xs) (hd 0%Q xs).

Definition np_amin (xs : list Q) : Q :=
  fold_left (fun m a => if Qle_bool a m then a else m) (tl xs) (hd 0%Q xs).

(** the products of the deviations, pairwise *)
Fixpoint dev_products (xm ym : Q) (xs ys : list Q) : list Q :=
  match xs, ys with
  | x :: xs', y :: ys' => ((x - xm) * (y - ym))%Q :: dev_products xm ym xs' ys'
  | _, _ => []
  end.

(** [scipy.stats.linregress(x, y)], its slope and intercept: it raises on
    empty input and on two or more identical [x]; [np.cov(x, y, bias=1)]
    gives the averaged sums of squares and needs equal lengths; the slope
    is their quotient.  The means, sums and quotients are the exact ones:
    scipy's float64 results are these numbers up to rounding, and where
    the exact quotient is 0/0 scipy's is nan. *)
Definition linregress (x y : list Q) : result (float64 * float64) :=
  if (length x =? 0) || (length y =? 0) then
    Raise (ValueError "Inputs must not be empty.")
  else if Qeq_bool (np_amax x) (np_amin x) && (1 <? length x) then
    Raise (ValueError
      "Cannot calculate a linear regression if all x values are identical")
  else if negb (length x =? length y) then
    Raise (ValueError "all the input array dimensions must match")
  else
    let xmean := np_mean x in
    let ymean := np_mean y in
    let ssxm := np_mean (dev_products xmean xmean x x) in
    let ssxym := np_mean (dev_products xmean ymean x y) in
    let slope := fdiv (Finite ssxym) (Finite ssxm) in
    let intercept := fsub (Finite ymean) (fmul slope (Finite xmean)) in
    Ok (slope, intercept).

(** The figure: the scatter trace of the readings and the line trace that
    [fig.add_scatter] adds. *)
Record Figure : Type := {
  scatter_x : list string;
  scatter_y : list Q;
  line_x : list string;
  line_y : list float64
}.

(** [df['best_fit_line'] = values]: pandas refuses a column whose length is
    not the frame's. *)
Definition set_best_fit_line (df : DataFrame) (values : list float64)
  : result (list float64) :=
  if length values =? df_len df then Ok values
  else Raise (ValueError "Length of values does not match length of index").

(** The body of [display_plot] on the frame it fetched.  [None] is Python's
    [None]: the function falls off its end without a figure.  The
    timestamps stay the strings [strftime] produced ([pd.to_datetime] only
    changes their type), and the titles, labels and colours of the figure
    are left out. *)
Definition plot_trend (df : DataFrame) : result (option Figure) :=
  if negb (df_empty df) then
    let sequence := seq 0 (df_len df) in
    let x_vals := sequence in
    let y_vals := col_temp df in
    match linregress (map Q_of_nat x_vals) y_vals with
    | Raise e => Raise e
    | Ok (slope, intercept) =>
        match set_best_fit_line df
                (map (fun x => fadd (fmul slope (Finite (Q_of_nat x))) intercept)
                     x_vals) with
        | Raise e => Raise e
        | Ok best_fit_line =>
            Ok (Some {| scatter_x := col_timestamp df;
                        scatter_y := col_temp df;
                        line_x := col_timestamp df;
                        line_y := best_fit_line |})
        end
    end
  else Ok None.

Definition display_plot (inp : TickInput) (st : AppState)
  : result (option Figure) * AppState :=
  let '(res, st') := reactive_calc_combined inp st in
  (plot_trend (df res), st').

(** the slope and intercept the trend computation fits to a buffer *)
Definition trend_fit (buffer : list Reading) : result (float64 * float64) :=
  linregress (map Q_of_nat (seq 0 (length buffer))) (map temp buffer).

(** the trend line computed for a buffer *)
Definition trend_line (buffer : list Reading) : result (option (list float64)) :=
  match plot_trend (DataFrame_of buffer) with
  | Ok (Some fig) => Ok (Some (line_y fig))
  | Ok None => Ok None
  | Raise e => Raise e
  end.

(** ** Notions the properties are stated with *)

(** the rows a tick of the secondary feed appends, if it gets that far *)
Definition appended_rows (env : PenguinEnv) : option (list Penguin) :=
  match load_penguins env with
  | Ok penguins_df =>
      match sample env penguins_df 5 with
      | Ok rows => Some rows
      | Raise _ => None
      end
  | Raise _ => None
  end.

(** the state every sequence of ticks keeps *)
Definition well_formed (st : AppState) : Prop :=
  (maxlen (reactive_value_wrapper st) = DEQUE_SIZE /\
   bounded (reactive_value_wrapper st)) /\
  (maxlen (reactive_value_wrapper_two st) = DEQUE_SIZE_TWO /\
   bounded (reactive_value_wrapper_two st)).

(** some call of the [try] block raises: loading the data set, sampling
    it, or building the typed frame from the buffer the sample went into *)
Definition dataset_step_fails (env : PenguinEnv) (st : AppState) : bool :=
  match load_penguins env with
  | Raise _ => true
  | Ok penguins_df =>
      match sample env penguins_df 5 with
      | Raise _ => true
      | Ok rows =>
          negb (is_ok (typed_frame env
                         (items (append (reactive_value_wrapper_two st) rows))))
      end
  end.

(** a data set that cannot be loaded *)
Definition unavailable_dataset : PenguinEnv :=
  {| load_penguins := Raise (OtherException "cannot read penguins.csv");
     sample := fun rows _ => Ok rows;
     typed_frame := fun _ => Ok empty_table |}.

(** pandas labels the columns of a frame built from lists by position, so
    the lookup of a column by name raises after the rows were appended *)
Definition positional_columns (rows : list Penguin) : PenguinEnv :=
  {| load_penguins := Ok rows;
     sample := fun rows n =>
       if length rows <? n
       then Raise (ValueError
         "Cannot take a larger sample than population when 'replace=False'")
       else Ok (firstn n rows);
     typed_frame := fun _ => Raise (KeyError "species") |}.

(** the slope fitted to a buffer is the finite number [v] *)
Definition slope_is (buffer : list Reading) (v : Q) : Prop :=
  exists s i, trend_fit buffer = Ok (Finite s, i) /\ (s == v)%Q.

(** the sum of the squared residuals of the line [a * x + b] *)
Definition sse (a b : Q) (xs ys : list Q) : Q :=
  Qsum (map (fun p => (snd p - (a * fst p + b)) * (snd p - (a * fst p + b)))%Q
            (combine xs ys)).

(** the line [a * x + b] is an ordinary least-squares line of the points *)
Definition least_squares (xs ys : list Q) (a b : Q) : Prop :=
  forall a' b' : Q, (sse a b xs ys <= sse a' b' xs ys)%Q.

(** the readings the primary ticks of a run generate, in order *)
Definition primary_readings (ticks : list Tick) : list Reading :=
  flat_map (fun t => match t with
                     | PrimaryTick inp => [new_dictionary_entry inp]
                     | SecondaryTick _ => []
                     end) ticks.

(** the samples the secondary ticks of a run append, in order *)
Definition secondary_samples (ticks : list Tick) : list (list Penguin) :=
  flat_map (fun t => match t with
                     | PrimaryTick _ => []
                     | SecondaryTick env =>
                         match appended_rows env with
                         | Some rows => [rows]
                         | None => []
                         end
                     end) ticks.

(** a temperature of the synthetic range, in whole tenths *)
Definition in_range_tenths (r : Reading) : Prop :=
  (-18 <= temp r <= -16)%Q /\
  exists tenths : Z, (temp r == inject_Z tenths / 10)%Q.

(** a row of the data set *)
Definition sample_penguin : Penguin :=
  {| species := "Adelie"; island := "Torgersen";
     bill_length_mm := Some (391 # 10)%Q; bill_depth_mm := Some (187 # 10)%Q;
     flipper_length_mm := Some 181%Q; body_mass_g := Some 3750%Q;
     sex := "male" |}.

(** the value of the line [a * x + b] at the index [i] *)
Definition line_at (a b : Q) (i : nat) : Q := (a * Q_of_nat i + b)%Q.

(** the trend computation fits a least-squares line to the buffer: it finds
    a slope and an intercept, numbers both, of a least-squares line of the
    readings over their indices, and the trend line is that line's value at
    every index *)
Definition fits_ols_line (buffer : list Reading) : Prop :=
  exists slope intercept : Q,
    trend_fit buffer = Ok (Finite slope, Finite intercept) /\
    least_squares (map Q_of_nat (seq 0 (length buffer))) (map temp buffer)
                  slope intercept /\
    trend_line buffer =
      Ok (Some (map (fun i => Finite (line_at slope intercept i))
                    (seq 0 (length buffer)))).

(** * Properties *)

(** ** The bounded deque *)

Section DequeFacts.

Context {A : Type}.
Implicit Types (d : deque A) (x : A) (xs : list A).

Lemma maxlen_append d x : maxlen (append d x) = maxlen d.
Proof. reflexivity. Qed.

Lemma maxlen_extend xs : forall d, maxlen (extend d xs) = maxlen d.
Proof.
  induction xs as [|x xs IH]; intros d; [reflexivity|].
  change (extend d (x :: xs)) with (extend (append d x) xs).
  rewrite IH. apply maxlen_append.
Qed.

Lemma tl_app_nonempty (l l' : list A) : l <> [] -> tl (l ++ l') = tl l ++ l'.
Proof. destruct l; [congruence | reflexivity]. Qed.

Lemma length_tl (l : list A) : length (tl l) = length l - 1.
Proof. destruct l; simpl; lia. Qed.

Lemma skipn_tl (l : list A) k : skipn k (tl l) = skipn (S k) l.
Proof. destruct l; simpl; [apply skipn_nil | reflexivity]. Qed.

(** what [append] does to a deque that respects its bound: the oldest
    item leaves exactly when the deque is full *)
Lemma items_append_bounded d x :
  bounded d ->
  items (append d x) =
  if len d =? maxlen d then tl (items d ++ [x]) else items d ++ [x].
Proof.
  unfold bounded, len, append; intros Hb; simpl.
  rewrite length_app; simpl.
  destruct (Nat.eqb_spec (length (items d)) (maxlen d)) as [E|E].
  - rewrite E. replace (maxlen d <? maxlen d + 1) with true; [reflexivity|].
    symmetry; apply Nat.ltb_lt; lia.
  - replace (maxlen d <? length (items d) + 1) with false; [reflexivity|].
    symmetry; apply Nat.ltb_ge; lia.
Qed.

Lemma bounded_append d x : bounded d -> bounded (append d x).
Proof.
  intros Hb. unfold bounded, len. rewrite (items_append_bounded x Hb).
  rewrite maxlen_append. unfold bounded, len in *.
  destruct (Nat.eqb_spec (length (items d)) (maxlen d)) as [E|E].
  - rewrite length_tl, length_app; simpl; lia.
  - rewrite length_app; simpl; lia.
Qed.

Lemma bounded_empty n : bounded (@Deque.empty A n).
Proof. unfold bounded, len; simpl; lia. Qed.

(** a bounded deque keeps the most recent items of all it ever held *)
Lemma items_extend_bounded xs : forall d,
  bounded d ->
  items (extend d xs) =
  skipn (len d + length xs - maxlen d) (items d ++ xs).
Proof.
  induction xs as [|x xs IH]; intros d Hb.
  - simpl. rewrite app_nil_r.
    replace (len d + 0 - maxlen d) with 0 by (unfold bounded in Hb; lia).
    reflexivity.
  - change (extend d (x :: xs)) with (extend (append d x) xs).
    rewrite (IH _ (bounded_append x Hb)), maxlen_append.
    unfold len at 1. rewrite (items_append_bounded x Hb).
    unfold bounded, len in *.
    destruct (Nat.eqb_spec (length (items d)) (maxlen d)) as [E|E].
    + rewrite <- tl_app_nonempty by (destruct (items d); discriminate).
      rewrite skipn_tl, length_tl, length_app, <- app_assoc.
      change ([x] ++ xs) with (x :: xs).
      change (length [x]) with 1; change (length (x :: xs)) with (S (length xs)).
      f_equal. lia.
    + rewrite length_app, <- app_assoc.
      change ([x] ++ xs) with (x :: xs).
      change (length [x]) with 1; change (length (x :: xs)) with (S (length xs)).
      f_equal. lia.
Qed.

Lemma items_extend_empty n xs :
  items (extend (Deque.empty n) xs) = skipn (length xs - n) xs.
Proof.
  rewrite (items_extend_bounded xs (bounded_empty n)). reflexivity.
Qed.

Lemma append_nonempty d x :
  1 <= maxlen d -> items (append d x) <> [].
Proof.
  unfold append; simpl; intros Hm.
  destruct (maxlen d <? length (items d ++ [x])) eqn:E.
  - apply Nat.ltb_lt in E. intros Hnil.
    apply (f_equal (@length A)) in Hnil. rewrite length_tl in Hnil.
    simpl in Hnil. lia.
  - destruct (items d); discriminate.
Qed.

Lemma last_tl (l : list A) (a : A) :
  2 <= length l -> last (tl l) a = last l a.
Proof. destruct l as [|y [|z l]]; simpl; intros; try lia; reflexivity. Qed.

Lemma last_append d x a :
  1 <= maxlen d -> last (items (append d x)) a = x.
Proof.
  unfold append; simpl; intros Hm.
  destruct (maxlen d <? length (items d ++ [x])) eqn:E.
  - apply Nat.ltb_lt in E. rewrite last_tl by lia. apply last_last.
  - apply last_last.
Qed.

End DequeFacts.

(** ** The two feeds *)

Lemma step_primary inp st :
  step st (PrimaryTick inp) =
  {| reactive_value_wrapper :=
       append (reactive_value_wrapper st) (new_dictionary_entry inp);
     reactive_value_wrapper_two := reactive_value_wrapper_two st |}.
Proof. reflexivity. Qed.

Lemma step_secondary env st :
  step st (SecondaryTick env) =
  match appended_rows env with
  | Some rows =>
      {| reactive_value_wrapper := reactive_value_wrapper st;
         reactive_value_wrapper_two :=
           append (reactive_value_wrapper_two st) rows |}
  | None => st
  end.
Proof.
  unfold step, reactive_calc_generate, try_except, generate_try, appended_rows,
    bind, call, ret, append_wrapper_two, get_wrapper_two.
  destruct (load_penguins env) as [p|e]; simpl; [|reflexivity].
  destruct (sample env p 5) as [rows|e]; simpl; [|reflexivity].
  destruct (typed_frame env _); reflexivity.
Qed.

Lemma well_formed_initial : well_formed initial_state.
Proof.
  unfold well_formed, initial_state; simpl.
  repeat split; apply bounded_empty.
Qed.

Lemma well_formed_step st t : well_formed st -> well_formed (step st t).
Proof.
  intros [[M1 B1] [M2 B2]]. destruct t as [inp|env].
  - rewrite step_primary. unfold well_formed; simpl.
    repeat split; auto using bounded_append.
  - rewrite step_secondary. destruct (appended_rows env) as [rows|].
    + unfold well_formed; simpl. repeat split; auto using bounded_append.
    + repeat split; assumption.
Qed.

Lemma well_formed_run ticks : forall st,
  well_formed st -> well_formed (run ticks st).
Proof.
  induction ticks as [|t ticks IH]; intros st Hwf; [assumption|].
  apply IH, well_formed_step, Hwf.
Qed.

Lemma well_formed_len st :
  well_formed st ->
  len (reactive_value_wrapper st) <= DEQUE_SIZE /\
  len (reactive_value_wrapper_two st) <= DEQUE_SIZE_TWO.
Proof.
  intros [[M1 B1] [M2 B2]]. unfold bounded in *. rewrite <- M1, <- M2. auto.
Qed.

(** after a full or not full deque, the items once [x] is appended *)
Lemma items_append_evicts {A} (d : deque A) (x : A) :
  bounded d -> 1 <= maxlen d ->
  items (append d x) =
  (if len d =? maxlen d then tl (items d) else items d) ++ [x].
Proof.
  intros Hb Hm. rewrite (items_append_bounded x Hb).
  destruct (Nat.eqb_spec (len d) (maxlen d)) as [E|E]; [|reflexivity].
  apply tl_app_nonempty. unfold len in E. destruct (items d); simpl in *;
    [lia | discriminate].
Qed.

(** a run of primary ticks appends the readings it generates, in order *)
Lemma run_primary inps : forall st,
  reactive_value_wrapper (run (map PrimaryTick inps) st) =
  extend (reactive_value_wrapper st) (map new_dictionary_entry inps).
Proof.
  induction inps as [|inp inps IH]; intros st; [reflexivity|].
  simpl map. change (run (PrimaryTick inp :: map PrimaryTick inps) st)
    with (run (map PrimaryTick inps) (step st (PrimaryTick inp))).
  rewrite IH. reflexivity.
Qed.

(** the primary feed holds the five most recent readings *)
Lemma primary_feed_keeps_latest inps :
  items (reactive_value_wrapper (run (map PrimaryTick inps) initial_state)) =
  skipn (length inps - DEQUE_SIZE) (map new_dictionary_entry inps).
Proof.
  rewrite run_primary. simpl reactive_value_wrapper.
  rewrite items_extend_empty, length_map. reflexivity.
Qed.

(** C1: after every sequence of ticks of the two feeds, and after one more
    tick, the primary buffer holds at most 5 entries and the secondary one
    at most 10; a tick that appends to a full buffer drops its oldest entry
    and a tick that appends to a buffer with room drops nothing. *)
Theorem buffer_never_exceeds_capacity :
  forall (ticks : list Tick) (t : Tick),
    let st := run ticks initial_state in
    let st' := step st t in
    (len (reactive_value_wrapper st) <= DEQUE_SIZE /\
     len (reactive_value_wrapper_two st) <= DEQUE_SIZE_TWO) /\
    (len (reactive_value_wrapper st') <= DEQUE_SIZE /\
     len (reactive_value_wrapper_two st') <= DEQUE_SIZE_TWO) /\
    match t with
    | PrimaryTick inp =>
        items (reactive_value_wrapper st') =
        (if len (reactive_value_wrapper st) =? DEQUE_SIZE
         then tl (items (reactive_value_wrapper st))
         else items (reactive_value_wrapper st)) ++ [new_dictionary_entry inp]
    | SecondaryTick env =>
        match appended_rows env with
        | Some rows =>
            items (reactive_value_wrapper_two st') =
            (if len (reactive_value_wrapper_two st) =? DEQUE_SIZE_TWO
             then tl (items (reactive_value_wrapper_two st))
             else items (reactive_value_wrapper_two st)) ++ [rows]
        | None => reactive_value_wrapper_two st' = reactive_value_wrapper_two st
        end
    end.
Proof.
  intros ticks t st st'.
  assert (Hwf : well_formed st) by apply well_formed_run, well_formed_initial.
  assert (Hwf' : well_formed st') by apply well_formed_step, Hwf.
  split; [apply well_formed_len, Hwf|].
  split; [apply well_formed_len, Hwf'|].
  destruct Hwf as [[M1 B1] [M2 B2]]. subst st'.
  destruct t as [inp|env].
  - rewrite step_primary; simpl reactive_value_wrapper.
    rewrite <- M1. apply items_append_evicts; [assumption|].
    rewrite M1. unfold DEQUE_SIZE; lia.
  - rewrite step_secondary. destruct (appended_rows env) as [rows|]; [|reflexivity].
    simpl reactive_value_wrapper_two.
    rewrite <- M2. apply items_append_evicts; [assumption|].
    rewrite M2. unfold DEQUE_SIZE_TWO; lia.
Qed.

(** C2: into an empty buffer of capacity N, N+1 readings are inserted; the
    buffer then holds the last N of them in insertion order, so its first
    entry is the second reading inserted. *)
Theorem fifo_eviction_round_trip :
  forall (A : Type) (N : nat) (xs : list A),
    length xs = S N ->
    let d := extend (Deque.empty N) xs in
    items d = skipn 1 xs /\
    len d = N /\
    hd_error (items d) = nth_error xs 1.
Proof.
  intros A N xs Hlen d. subst d. unfold len.
  rewrite items_extend_empty, Hlen.
  replace (S N - N) with 1 by lia.
  destruct xs as [|x xs]; [discriminate|]. simpl in *.
  split; [reflexivity|]. split; [lia|]. destruct xs; reflexivity.
Qed.

Lemma fifo_eviction_round_trip_witness :
  let d := extend (Deque.empty 2) [10; 20; 30] in
  items d = skipn 1 [10; 20; 30] /\ len d = 2 /\
  hd_error (items d) = nth_error [10; 20; 30] 1.
Proof. exact (@fifo_eviction_round_trip nat 2 [10; 20; 30] eq_refl). Defined.

(** the buffer a tick of the primary feed returns, from a state that ticks
    can reach *)
Lemma combined_snapshot_items ticks inp :
  let st := run ticks initial_state in
  let res := fst (reactive_calc_combined inp st) in
  items (deque_snapshot res) =
    (if len (reactive_value_wrapper st) =? DEQUE_SIZE
     then tl (items (reactive_value_wrapper st))
     else items (reactive_value_wrapper st)) ++ [new_dictionary_entry inp] /\
  len (deque_snapshot res) <= DEQUE_SIZE.
Proof.
  intros st res.
  assert (Hwf : well_formed st) by apply well_formed_run, well_formed_initial.
  destruct Hwf as [[M1 B1] _]. split.
  - subst res; simpl. rewrite <- M1. apply items_append_evicts; [assumption|].
    rewrite M1. unfold DEQUE_SIZE; lia.
  - subst res; simpl deque_snapshot.
    rewrite <- M1, <- (maxlen_append _ (new_dictionary_entry inp)).
    apply bounded_append, B1.
Qed.

(** C7: a tick of the primary feed returns the buffer, the frame built from
    that same buffer and the reading it has just inserted: the frame's
    [temp] and [timestamp] columns are the temperatures and timestamps of
    the buffered readings, row by row in buffer order; the buffer it
    returns is the one the reactive value holds after the eviction, with at
    most 5 entries. *)
Theorem tick_returns_post_eviction_snapshot :
  forall (ticks : list Tick) (inp : TickInput),
    let st := run ticks initial_state in
    let res := fst (reactive_calc_combined inp st) in
    let st' := snd (reactive_calc_combined inp st) in
    deque_snapshot res = reactive_value_wrapper st' /\
    (col_temp (df res) = map temp (items (deque_snapshot res)) /\
     col_timestamp (df res) = map timestamp (items (deque_snapshot res)) /\
     df_len (df res) = len (deque_snapshot res)) /\
    latest_dictionary_entry res = new_dictionary_entry inp /\
    items (deque_snapshot res) =
      (if len (reactive_value_wrapper st) =? DEQUE_SIZE
       then tl (items (reactive_value_wrapper st))
       else items (reactive_value_wrapper st)) ++ [new_dictionary_entry inp] /\
    len (deque_snapshot res) <= DEQUE_SIZE.
Proof.
  intros ticks inp st res st'.
  destruct (combined_snapshot_items ticks inp) as [Hitems Hlen].
  split; [reflexivity|].
  split; [split; [reflexivity|split; [reflexivity|apply length_map]]|].
  split; [reflexivity|].
  split; assumption.
Qed.

(** C10: after every tick of the primary feed the returned buffer is not
    empty and ends with the reading returned as the latest entry. *)
Theorem snapshot_ends_with_latest :
  forall (ticks : list Tick) (inp : TickInput),
    let res := fst (reactive_calc_combined inp (run ticks initial_state)) in
    items (deque_snapshot res) <> [] /\
    exists front,
      items (deque_snapshot res) = front ++ [latest_dictionary_entry res].
Proof.
  intros ticks inp res.
  destruct (combined_snapshot_items ticks inp) as [Hitems _].
  fold res in Hitems. split.
  - rewrite Hitems. intros Hnil. apply app_eq_nil in Hnil. destruct Hnil; discriminate.
  - eexists. exact Hitems.
Qed.

(** ** The generated temperature *)

Lemma random_unit_range bits : (0 <= random_unit bits < 1)%Q.
Proof.
  unfold random_unit, Qle, Qlt; simpl.
  pose proof (Z.mod_pos_bound bits (2 ^ 53) eq_refl) as H.
  change (Z.pow_pos 2 53) with (2 ^ 53)%Z. lia.
Qed.

Lemma uniform_range bits :
  (-18 <= uniform (-18) (-16) bits < -16)%Q.
Proof.
  unfold uniform. pose proof (random_unit_range bits) as [H0 H1].
  split; lra.
Qed.

(** the rounded integer is within a half of the number *)
Lemma round_half_even_near q :
  (inject_Z (round_half_even q) - (1 # 2) <= q <=
   inject_Z (round_half_even q) + (1 # 2))%Q.
Proof.
  unfold round_half_even.
  pose proof (Qfloor_le q) as Hlo. pose proof (Qlt_floor q) as Hhi.
  rewrite inject_Z_plus in Hhi. change (inject_Z 1) with 1%Q in Hhi.
  destruct (Qcompare_spec (q - inject_Z (Qfloor q)) (1 # 2)) as [E|E|E].
  - destruct (Z.even (Qfloor q)).
    + split; lra.
    + rewrite inject_Z_plus. change (inject_Z 1) with 1%Q. split; lra.
  - split; lra.
  - rewrite inject_Z_plus. change (inject_Z 1) with 1%Q. split; lra.
Qed.

Lemma round_half_even_between q (lo hi : Z) :
  (inject_Z lo <= q <= inject_Z hi)%Q ->
  (lo <= round_half_even q <= hi)%Z.
Proof.
  intros [Hlo Hhi]. pose proof (round_half_even_near q) as [H1 H2].
  split.
  - apply Z.lt_succ_r, Z.lt_pred_lt_succ. rewrite Zlt_Qlt.
    unfold Z.pred. rewrite inject_Z_plus. change (inject_Z (-1)) with (-1)%Q. lra.
  - apply Z.lt_succ_r. rewrite Zlt_Qlt.
    unfold Z.succ. rewrite inject_Z_plus. change (inject_Z 1) with 1%Q. lra.
Qed.

(** C8: the temperature of every generated reading is a whole number of
    tenths between -18 and -16 inclusive, the nearest one to the number
    drawn from the range; the draw and the rounding are total, so a reading
    is produced for every input. *)
Theorem generated_temp_in_range :
  forall inp : TickInput,
    let drawn := uniform (-18) (-16) (random_bits inp) in
    let reading := new_dictionary_entry inp in
    exists tenths : Z,
      (-180 <= tenths <= -160)%Z /\
      (temp reading == inject_Z tenths / 10)%Q /\
      (-18 <= temp reading <= -16)%Q /\
      (Qabs (temp reading - drawn) <= 1 # 20)%Q /\
      timestamp reading = now inp.
Proof.
  intros inp drawn reading.
  pose proof (uniform_range (random_bits inp)) as [Hlo Hhi]. fold drawn in Hlo, Hhi.
  assert (Ht : (temp reading == inject_Z (round_half_even (drawn * 10)) / 10)%Q)
    by reflexivity.
  pose proof (round_half_even_near (drawn * 10)) as [N1 N2].
  assert (Hk : (-180 <= round_half_even (drawn * 10) <= -160)%Z).
  { apply round_half_even_between.
    change (inject_Z (-180)) with (-180)%Q. change (inject_Z (-160)) with (-160)%Q.
    split; lra. }
  destruct Hk as [K1 K2].
  exists (round_half_even (drawn * 10)).
  rewrite Zle_Qle in K1, K2.
  change (inject_Z (-180)) with (-180)%Q in K1.
  change (inject_Z (-160)) with (-160)%Q in K2.
  split; [split; rewrite Zle_Qle; assumption|].
  split; [exact Ht|].
  assert (Ht' : (temp reading ==
                 inject_Z (round_half_even (drawn * 10)) * (1 # 10))%Q)
    by exact Ht.
  split; [split; lra|].
  split; [|reflexivity].
  apply Qabs_Qle_condition. split; lra.
Qed.

(** ** Errors of the secondary feed *)

Example unavailable_dataset_gives_empty :
  reactive_calc_generate unavailable_dataset initial_state =
  (Ok empty_generated, initial_state).
Proof. reflexivity. Qed.

Example positional_columns_gives_empty (p : Penguin) :
  let rows := repeat p 6 in
  let '(res, st') := reactive_calc_generate (positional_columns rows) initial_state in
  res = Ok empty_generated /\
  items (reactive_value_wrapper_two st') = [repeat p 5].
Proof. simpl. split; reflexivity. Qed.

(** C9: a tick of the secondary feed never raises; when loading, sampling
    or processing the data set raises, the tick returns the empty list, the
    empty table and the empty latest entry, and otherwise the buffer, its
    table and the rows just sampled. *)
Theorem dataset_error_gives_empty_result :
  forall (env : PenguinEnv) (st : AppState),
    let out := fst (reactive_calc_generate env st) in
    let st' := snd (reactive_calc_generate env st) in
    is_ok out = true /\
    if dataset_step_fails env st
    then out = Ok empty_generated
    else exists rows table,
        appended_rows env = Some rows /\
        typed_frame env (items (reactive_value_wrapper_two st')) = Ok table /\
        out = Ok {| gen_snapshot := items (reactive_value_wrapper_two st');
                    gen_df := table;
                    latest_random_rows_dict := rows |}.
Proof.
  intros env st out st'. subst out st'.
  unfold reactive_calc_generate, try_except, generate_try, dataset_step_fails,
    appended_rows, bind, call, ret, append_wrapper_two, get_wrapper_two.
  destruct (load_penguins env) as [p|e]; simpl; [|split; reflexivity].
  destruct (sample env p 5) as [rows|e]; simpl; [|split; reflexivity].
  destruct (typed_frame env _) as [table|e] eqn:E; simpl; [|split; reflexivity].
  split; [reflexivity|]. exists rows, table. repeat split. exact E.
Qed.

(** ** The trend line *)

(** C4: for an empty buffer the trend computation raises nothing and
    produces no figure and no trend line. *)
Theorem empty_buffer_no_trend :
  plot_trend (DataFrame_of (items (@Deque.empty Reading DEQUE_SIZE))) = Ok None /\
  trend_line [] = Ok None.
Proof. split; reflexivity. Qed.

(** the guard of [display_plot]: an empty frame is not fitted at all *)
Lemma plot_trend_empty (frame : DataFrame) :
  df_empty frame = true -> plot_trend frame = Ok None.
Proof. unfold plot_trend. intros ->. reflexivity. Qed.

(** a buffer whose fitted slope is not the number zero *)
Lemma single_reading_slope_is_not_zero :
  ~ slope_is [{| temp := (-17)%Q; timestamp := "2024-06-01 12:00:00" |}] 0.
Proof. intros (s & i & H & _). discriminate H. Qed.

(** ** Least squares *)

Section Sums.

Local Open Scope Q_scope.

Implicit Types (ps : list (Q * Q)) (xs ys : list Q).

Lemma Q_of_nat_S k : Q_of_nat (S k) == Q_of_nat k + 1.
Proof.
  unfold Q_of_nat. rewrite Nat2Z.inj_succ. unfold Z.succ.
  rewrite inject_Z_plus. reflexivity.
Qed.

Lemma Q_of_nat_pos k : (0 < k)%nat -> 0 < Q_of_nat k.
Proof.
  intros H. unfold Q_of_nat. change 0 with (inject_Z 0).
  rewrite <- Zlt_Qlt. lia.
Qed.

Lemma dev_products_combine xm ym xs : forall ys,
  dev_products xm ym xs ys =
  map (fun p => (fst p - xm) * (snd p - ym)) (combine xs ys).
Proof.
  induction xs as [|x xs IH]; intros [|y ys]; simpl; try reflexivity.
  rewrite IH. reflexivity.
Qed.

Lemma dev_products_self xm xs : forall ys,
  length xs = length ys ->
  dev_products xm xm xs xs =
  map (fun p => (fst p - xm) * (fst p - xm)) (combine xs ys).
Proof.
  induction xs as [|x xs IH]; intros [|y ys] H; simpl in *;
    try reflexivity; try discriminate.
  rewrite (IH ys) by congruence. reflexivity.
Qed.

Lemma map_fst_combine_eq xs : forall ys,
  length xs = length ys -> map fst (combine xs ys) = xs.
Proof.
  induction xs as [|x xs IH]; intros [|y ys] H; simpl in *;
    try reflexivity; try discriminate.
  rewrite IH by congruence. reflexivity.
Qed.

Lemma map_snd_combine_eq xs : forall ys,
  length xs = length ys -> map snd (combine xs ys) = ys.
Proof.
  induction xs as [|x xs IH]; intros [|y ys] H; simpl in *;
    try reflexivity; try discriminate.
  rewrite IH by congruence. reflexivity.
Qed.

Lemma square_nonneg (q : Q) : 0 <= q * q.
Proof.
  unfold Qle, Qmult; simpl. rewrite Z.mul_1_r. apply Z.square_nonneg.
Qed.

(** a sum of squares is not negative, and is zero only when every term is *)
Lemma sum_squares_nonneg (g : Q * Q -> Q) ps :
  0 <= Qsum (map (fun p => g p * g p) ps).
Proof.
  induction ps as [|p ps IH]; simpl; [apply Qle_refl|].
  pose proof (square_nonneg (g p)) as Hsq. lra.
Qed.

Lemma sum_squares_zero (g : Q * Q -> Q) ps :
  Qsum (map (fun p => g p * g p) ps) == 0 ->
  forall p, In p ps -> g p == 0.
Proof.
  induction ps as [|q ps IH]; simpl; intros Hz p Hin; [contradiction|].
  pose proof (sum_squares_nonneg g ps) as Hrest.
  pose proof (sum_squares_nonneg g [q]) as Hq. simpl in Hq.
  destruct Hin as [<-|Hin].
  - assert (Hsq : g q * g q == 0) by lra.
    apply Qmult_integral in Hsq. destruct Hsq; assumption.
  - apply IH; [lra | assumption].
Qed.

(** the squared residuals of any line, set against those of a line
    [a * x + b] *)
Lemma sse_expand (a b a' b' : Q) ps :
  Qsum (map (fun p => (snd p - (a' * fst p + b')) * (snd p - (a' * fst p + b'))) ps)
  == Qsum (map (fun p => (snd p - (a * fst p + b)) * (snd p - (a * fst p + b))) ps)
     + Qsum (map (fun p => ((a - a') * fst p + (b - b')) *
                           ((a - a') * fst p + (b - b'))) ps)
     + 2 * (a - a') * Qsum (map (fun p => fst p * (snd p - (a * fst p + b))) ps)
     + 2 * (b - b') * Qsum (map (fun p => snd p - (a * fst p + b)) ps).
Proof.
  induction ps as [|[x y] ps IH]; simpl; [ring|].
  rewrite IH. ring.
Qed.

(** the residuals of a line through the point of the means *)
Lemma residual_sum (a xm ym : Q) ps :
  Qsum (map (fun p => snd p - (a * fst p + (ym - a * xm))) ps)
  == (Qsum (map snd ps) - Q_of_nat (length ps) * ym)
     - a * (Qsum (map fst ps) - Q_of_nat (length ps) * xm).
Proof.
  induction ps as [|[x y] ps IH].
  - simpl. unfold Q_of_nat; simpl. ring.
  - cbn [map Qsum fold_right length fst snd]. fold (Qsum (map snd ps)).
    rewrite Q_of_nat_S.
    change (fold_right Qplus 0 ?l) with (Qsum l) in *.
    rewrite IH. ring.
Qed.

Lemma residual_moment (a xm ym : Q) ps :
  Qsum (map (fun p => fst p * (snd p - (a * fst p + (ym - a * xm)))) ps)
  == Qsum (map (fun p => (fst p - xm) * (snd p - ym)) ps)
     - a * Qsum (map (fun p => (fst p - xm) * (fst p - xm)) ps)
     + xm * Qsum (map (fun p => snd p - (a * fst p + (ym - a * xm))) ps).
Proof.
  induction ps as [|[x y] ps IH]; simpl; [ring|].
  rewrite IH. ring.
Qed.

End Sums.

Section Linregress.

Local Open Scope Q_scope.

Implicit Types (xs ys : list Q).

Lemma fold_max_ge (l : list Q) : forall m,
  m <= fold_left (fun m a => if Qle_bool m a then a else m) l m /\
  forall x, In x l ->
            x <= fold_left (fun m a => if Qle_bool m a then a else m) l m.
Proof.
  induction l as [|a l IH]; intros m; simpl.
  - split; [apply Qle_refl | contradiction].
  - destruct (Qle_bool m a) eqn:E.
    + apply Qle_bool_iff in E. destruct (IH a) as [H1 H2]. split.
      * lra.
      * intros x [<-|Hin]; auto.
    + destruct (IH m) as [H1 H2]. split; [assumption|].
      intros x [<-|Hin]; auto.
      assert (~ m <= a) by (rewrite <- Qle_bool_iff; congruence). lra.
Qed.

Lemma fold_min_le (l : list Q) : forall m,
  fold_left (fun m a => if Qle_bool a m then a else m) l m <= m /\
  forall x, In x l ->
            fold_left (fun m a => if Qle_bool a m then a else m) l m <= x.
Proof.
  induction l as [|a l IH]; intros m; simpl.
  - split; [apply Qle_refl | contradiction].
  - destruct (Qle_bool a m) eqn:E.
    + apply Qle_bool_iff in E. destruct (IH a) as [H1 H2]. split.
      * lra.
      * intros x [<-|Hin]; auto.
    + destruct (IH m) as [H1 H2]. split; [assumption|].
      intros x [<-|Hin]; auto.
      assert (~ a <= m) by (rewrite <- Qle_bool_iff; congruence). lra.
Qed.

Lemma np_amax_ge xs x : In x xs -> x <= np_amax xs.
Proof.
  unfold np_amax. destruct xs as [|h t]; [contradiction|]. simpl.
  destruct (fold_max_ge t h) as [H1 H2]. intros [<-|Hin]; auto.
Qed.

Lemma np_amin_le xs x : In x xs -> np_amin xs <= x.
Proof.
  unfold np_amin. destruct xs as [|h t]; [contradiction|]. simpl.
  destruct (fold_min_le t h) as [H1 H2]. intros [<-|Hin]; auto.
Qed.

Lemma length_dev_products xm ym xs : forall ys,
  length xs = length ys -> length (dev_products xm ym xs ys) = length xs.
Proof.
  induction xs as [|x xs IH]; intros [|y ys] H; simpl in *;
    try reflexivity; try discriminate.
  rewrite IH by congruence. reflexivity.
Qed.

(** the averaged sum of squares of [x] vanishes only when all [x] agree *)
Lemma ssxm_zero_all_equal xs x1 x2 :
  np_mean (dev_products (np_mean xs) (np_mean xs) xs xs) == 0 ->
  In x1 xs -> In x2 xs -> x1 == x2.
Proof.
  intros Hz H1 H2. unfold np_mean at 1 in Hz.
  rewrite length_dev_products in Hz by reflexivity.
  assert (Hn : 0 < Q_of_nat (length xs)).
  { apply Q_of_nat_pos. destruct xs; [contradiction | simpl; lia]. }
  set (xm := np_mean xs) in *.
  assert (Hsum : Qsum (dev_products xm xm xs xs) == 0).
  { setoid_replace (Qsum (dev_products xm xm xs xs))
      with (Qsum (dev_products xm xm xs xs) / Q_of_nat (length xs)
            * Q_of_nat (length xs)) by (field; lra).
    rewrite Hz. ring. }
  rewrite (dev_products_self xm xs xs eq_refl) in Hsum.
  pose proof (sum_squares_zero (fun p => fst p - xm) _ Hsum) as Hall.
  assert (Hin : forall x, In x xs -> In (x, x) (combine xs xs)).
  { clear. induction xs as [|h t IH]; simpl; [contradiction|].
    intros x [<-|Hin]; [left; reflexivity | right; auto]. }
  pose proof (Hall _ (Hin _ H1)) as E1. pose proof (Hall _ (Hin _ H2)) as E2.
  simpl in E1, E2. lra.
Qed.

Lemma length_combine_eq xs : forall ys,
  length xs = length ys -> length (combine xs ys) = length xs.
Proof.
  induction xs as [|x xs IH]; intros [|y ys] H; simpl in *;
    try reflexivity; try discriminate.
  rewrite IH by congruence. reflexivity.
Qed.

(** the fit of [linregress] on points whose [x] are not all the same *)
Lemma linregress_least_squares xs ys x1 x2 :
  length xs = length ys ->
  In x1 xs -> In x2 xs -> ~ x1 == x2 ->
  exists a b,
    linregress xs ys = Ok (Finite a, Finite b) /\ least_squares xs ys a b.
Proof.
  intros Hlen H1 H2 Hne.
  assert (Hpos : (0 < length xs)%nat) by (destruct xs; [contradiction | simpl; lia]).
  assert (Hn : 0 < Q_of_nat (length xs)) by (apply Q_of_nat_pos, Hpos).
  assert (Hss : ~ np_mean (dev_products (np_mean xs) (np_mean xs) xs xs) == 0).
  { intros E. apply Hne. exact (@ssxm_zero_all_equal xs x1 x2 E H1 H2). }
  unfold linregress.
  replace (length xs =? 0)%nat with false by (symmetry; apply Nat.eqb_neq; lia).
  replace (length ys =? 0)%nat with false by (symmetry; apply Nat.eqb_neq; lia).
  replace (Qeq_bool (np_amax xs) (np_amin xs)) with false.
  2:{ symmetry. apply not_true_is_false. intros E. apply Qeq_bool_iff in E.
      pose proof (@np_amax_ge xs x1 H1). pose proof (@np_amax_ge xs x2 H2).
      pose proof (@np_amin_le xs x1 H1). pose proof (@np_amin_le xs x2 H2).
      apply Hne. lra. }
  replace (length xs =? length ys)%nat with true by (symmetry; apply Nat.eqb_eq, Hlen).
  cbn [orb andb negb]. unfold fdiv.
  replace (Qeq_bool (np_mean (dev_products (np_mean xs) (np_mean xs) xs xs)) 0)
    with false.
  2:{ symmetry. apply not_true_is_false. intros E. apply Qeq_bool_iff in E.
      contradiction. }
  cbn [fmul fsub].
  set (xm := np_mean xs) in *. set (ym := np_mean ys).
  set (ssxm := np_mean (dev_products xm xm xs xs)) in *.
  set (ssxym := np_mean (dev_products xm ym xs ys)).
  exists (ssxym / ssxm), (ym - ssxym / ssxm * xm). split; [reflexivity|].
  set (a := ssxym / ssxm).
  set (ps := combine xs ys).
  assert (SR0 : Qsum (map (fun p => snd p - (a * fst p + (ym - a * xm))) ps) == 0).
  { rewrite residual_sum. unfold ps.
    rewrite map_snd_combine_eq, map_fst_combine_eq, length_combine_eq by assumption.
    unfold ym, xm, np_mean. rewrite <- Hlen. field. lra. }
  assert (SRX0 : Qsum (map (fun p => fst p * (snd p - (a * fst p + (ym - a * xm)))) ps) == 0).
  { rewrite residual_moment, SR0.
    assert (Cxy : Qsum (map (fun p => (fst p - xm) * (snd p - ym)) ps)
                  == ssxym * Q_of_nat (length xs)).
    { unfold ssxym, np_mean. rewrite length_dev_products by assumption.
      rewrite dev_products_combine. fold ps. field. lra. }
    assert (Cxx : Qsum (map (fun p => (fst p - xm) * (fst p - xm)) ps)
                  == ssxm * Q_of_nat (length xs)).
    { unfold ssxm, np_mean. rewrite length_dev_products by reflexivity.
      rewrite (dev_products_self xm xs ys Hlen). fold ps. field. lra. }
    rewrite Cxy, Cxx. unfold a. field. exact Hss. }
  intros a' b'. unfold sse. fold ps.
  rewrite (@sse_expand a (ym - a * xm) a' b' ps), SR0, SRX0.
  pose proof (sum_squares_nonneg
                (fun p => (a - a') * fst p + (ym - a * xm - b')) ps) as Hsq.
  cbv beta in Hsq. lra.
Qed.
End Linregress.

(** ** The fitted line of [display_plot] *)

Lemma trend_fit_frame (buffer : list Reading) :
  linregress (map Q_of_nat (seq 0 (df_len (DataFrame_of buffer))))
             (col_temp (DataFrame_of buffer)) = trend_fit buffer.
Proof.
  unfold trend_fit, df_len, DataFrame_of; simpl. rewrite length_map. reflexivity.
Qed.

(** [display_plot] has no handler around the fit: what [linregress] raises,
    it raises *)
Lemma plot_trend_raises (buffer : list Reading) (e : exn) :
  buffer <> [] -> trend_fit buffer = Raise e ->
  plot_trend (DataFrame_of buffer) = Raise e.
Proof.
  intros Hne Hfit. unfold plot_trend.
  replace (df_empty (DataFrame_of buffer)) with false
    by (destruct buffer; [congruence | reflexivity]).
  cbn [negb]. rewrite trend_fit_frame, Hfit. reflexivity.
Qed.

(** the figure drawn for a buffer that is not empty, given its fit *)
Lemma plot_trend_fitted (buffer : list Reading) (slope intercept : float64) :
  buffer <> [] -> trend_fit buffer = Ok (slope, intercept) ->
  plot_trend (DataFrame_of buffer) =
  Ok (Some {| scatter_x := map timestamp buffer;
              scatter_y := map temp buffer;
              line_x := map timestamp buffer;
              line_y := map (fun x => fadd (fmul slope (Finite (Q_of_nat x)))
                                           intercept)
                            (seq 0 (length buffer)) |}).
Proof.
  intros Hne Hfit. unfold plot_trend.
  replace (df_empty (DataFrame_of buffer)) with false
    by (destruct buffer; [congruence | reflexivity]).
  cbn [negb]. rewrite trend_fit_frame, Hfit.
  unfold set_best_fit_line.
  rewrite length_map, length_seq, Nat.eqb_refl.
  unfold df_len, DataFrame_of; simpl. rewrite length_map. reflexivity.
Qed.

(** the fit of two or more readings is a least-squares line *)
Lemma trend_fit_least_squares (r1 r2 : Reading) (rest : list Reading) :
  let buffer := r1 :: r2 :: rest in
  exists a b,
    trend_fit buffer = Ok (Finite a, Finite b) /\
    least_squares (map Q_of_nat (seq 0 (length buffer))) (map temp buffer) a b.
Proof.
  intros buffer. unfold trend_fit.
  apply (@linregress_least_squares _ _ (Q_of_nat 0) (Q_of_nat 1)).
  - rewrite !length_map, length_seq. reflexivity.
  - simpl. left. reflexivity.
  - simpl. right. left. reflexivity.
  - discriminate.
Qed.

(** the fit of a single reading: the quotient 0/0 *)
Lemma trend_fit_single (r : Reading) :
  trend_fit [r] = Ok (NonFinite, NonFinite).
Proof.
  unfold trend_fit, linregress.
  change (length (map Q_of_nat (seq 0 (length [r])))) with 1.
  change (length (map temp [r])) with 1.
  change (1 <? 1) with false. rewrite andb_false_r.
  cbn [Nat.eqb orb negb]. unfold fdiv.
  change (map Q_of_nat (seq 0 (length [r]))) with [0%Q].
  replace (Qeq_bool (np_mean (dev_products (np_mean [0%Q]) (np_mean [0%Q])
                                [0%Q] [0%Q])) 0) with true by reflexivity.
  reflexivity.
Qed.

(** on a buffer that is not empty the fit raises nothing *)
Lemma trend_fit_total (r : Reading) (rest : list Reading) :
  let buffer := r :: rest in
  exists slope intercept, trend_fit buffer = Ok (slope, intercept).
Proof.
  intros buffer. destruct rest as [|r2 rest].
  - exists NonFinite, NonFinite. apply trend_fit_single.
  - destruct (trend_fit_least_squares r r2 rest) as (a & b & Hfit & _).
    exists (Finite a), (Finite b). exact Hfit.
Qed.

(** every call of [display_plot] draws a figure: the buffer it fetches has
    just received a reading *)
Lemma display_plot_draws (inp : TickInput) (st : AppState) :
  1 <= maxlen (reactive_value_wrapper st) ->
  exists fig, fst (display_plot inp st) = Ok (Some fig).
Proof.
  intros Hm.
  change (fst (display_plot inp st))
    with (plot_trend (DataFrame_of (items (append (reactive_value_wrapper st)
                                             (new_dictionary_entry inp))))).
  pose proof (append_nonempty (reactive_value_wrapper st)
                (new_dictionary_entry inp) Hm) as Hne.
  destruct (items (append (reactive_value_wrapper st) (new_dictionary_entry inp)))
    as [|r rest]; [congruence|].
  destruct (trend_fit_total r rest) as (slope & intercept & Hfit).
  eexists. apply (@plot_trend_fitted (r :: rest) slope intercept);
    [discriminate | exact Hfit].
Qed.

(** C3, as the code has it: for a buffer of one reading the fit raises
    nothing; its slope and intercept are the quotient 0/0 and not finite
    numbers, and the trend line is that one value. *)
Theorem single_reading_trend :
  forall r : Reading,
    trend_fit [r] = Ok (NonFinite, NonFinite) /\
    trend_line [r] = Ok (Some [NonFinite]) /\
    plot_trend (DataFrame_of [r]) =
      Ok (Some {| scatter_x := [timestamp r]; scatter_y := [temp r];
                  line_x := [timestamp r]; line_y := [NonFinite] |}).
Proof.
  intros r. pose proof (trend_fit_single r) as H.
  split; [exact H|]. unfold trend_line.
  rewrite (@plot_trend_fitted [r] _ _ ltac:(discriminate) H).
  split; reflexivity.
Qed.

(** C5: for the readings 10.0, 12.0, 14.0 the fit has slope 2 and
    intercept 10, it is a least-squares line of the points (0,10), (1,12),
    (2,14), and the trend line is 10, 12, 14, increasing. *)
Theorem trend_of_10_12_14 :
  forall t0 t1 t2 : string,
    let buffer := [ {| temp := 10%Q; timestamp := t0 |};
                    {| temp := 12%Q; timestamp := t1 |};
                    {| temp := 14%Q; timestamp := t2 |} ] in
    exists slope intercept l0 l1 l2,
      trend_fit buffer = Ok (Finite slope, Finite intercept) /\
      (slope == 2 /\ intercept == 10)%Q /\
      least_squares [0%Q; 1%Q; 2%Q] [10%Q; 12%Q; 14%Q] slope intercept /\
      trend_line buffer = Ok (Some [Finite l0; Finite l1; Finite l2]) /\
      (l0 == 10 /\ l1 == 12 /\ l2 == 14)%Q /\
      (l0 < l1 /\ l1 < l2)%Q.
Proof.
  intros t0 t1 t2 buffer.
  destruct (trend_fit_least_squares (Build_Reading 10 t0)
              (Build_Reading 12 t1) [Build_Reading 14 t2])
    as (a & b & Hfit & Hls).
  change (trend_fit buffer = Ok (Finite a, Finite b)) in Hfit.
  assert (Hval : trend_fit buffer =
                 Ok (Finite (6377292 # 3188646), Finite (286978140 # 28697814)))
    by reflexivity.
  rewrite Hval in Hfit. injection Hfit as <- <-.
  do 5 eexists.
  split; [exact Hval|].
  split; [split; reflexivity|].
  split; [exact Hls|].
  unfold trend_line.
  rewrite (@plot_trend_fitted buffer _ _ ltac:(discriminate) Hval).
  split; [reflexivity|].
  split; [repeat split; reflexivity|].
  split; reflexivity.
Qed.

(** a buffer of one reading that is not fitted a least-squares line *)
Lemma single_reading_has_no_fitted_line :
  ~ fits_ols_line [{| temp := (-165 # 10)%Q; timestamp := "2024-06-01 12:00:00" |}].
Proof. intros (slope & intercept & H & _). discriminate H. Qed.

(** C6, as the code has it: every buffer that is not empty, of length L, is
    given one trend value per index 0..L-1, drawn against the timestamps in
    buffer order.  For two or more readings the trend computation fits a
    least-squares line (in exact arithmetic) to the readings' values over
    the indices, and the i-th trend value is slope * i + intercept.  For a
    single reading slope, intercept and the one trend value are no
    numbers. *)
Theorem trend_line_is_fitted_line :
  forall (r : Reading) (rest : list Reading),
    let buffer := r :: rest in
    let L := length buffer in
    (exists line,
        trend_line buffer = Ok (Some line) /\
        length line = L /\
        plot_trend (DataFrame_of buffer) =
          Ok (Some {| scatter_x := map timestamp buffer;
                      scatter_y := map temp buffer;
                      line_x := map timestamp buffer;
                      line_y := line |})) /\
    match rest with
    | [] =>
        trend_fit buffer = Ok (NonFinite, NonFinite) /\
        trend_line buffer = Ok (Some [NonFinite])
    | _ :: _ =>
        exists slope intercept : Q,
          linregress (map Q_of_nat (seq 0 L)) (map temp buffer) =
            Ok (Finite slope, Finite intercept) /\
          least_squares (map Q_of_nat (seq 0 L)) (map temp buffer)
                        slope intercept /\
          trend_line buffer =
            Ok (Some (map (fun i => Finite (slope * Q_of_nat i + intercept)%Q)
                          (seq 0 L)))
    end.
Proof.
  intros r rest buffer L.
  destruct (trend_fit_total r rest) as (slope & intercept & Hfit).
  assert (Hplot := @plot_trend_fitted buffer slope intercept
                     ltac:(discriminate) Hfit).
  split.
  - eexists. unfold trend_line. rewrite Hplot.
    split; [reflexivity|]. split; [|reflexivity].
    cbn [line_y]. rewrite length_map, length_seq. reflexivity.
  - clear Hplot Hfit. subst L buffer. destruct rest as [|r2 rest].
    + pose proof (trend_fit_single r) as Hone.
      split; [exact Hone|]. unfold trend_line.
      rewrite (@plot_trend_fitted [r] _ _ ltac:(discriminate) Hone).
      reflexivity.
    + destruct (trend_fit_least_squares r r2 rest) as (a & b & Hab & Hls).
      exists a, b. split; [exact Hab|]. split; [exact Hls|].
      unfold trend_line.
      rewrite (@plot_trend_fitted (r :: r2 :: rest) _ _ ltac:(discriminate) Hab).
      reflexivity.
Qed.

(** * Further properties of the feeds *)

Lemma extend_app {A} (xs ys : list A) (d : deque A) :
  extend d (xs ++ ys) = extend (extend d xs) ys.
Proof. unfold extend. apply fold_left_app. Qed.

(** what a run does to the two buffers, from any state *)
Lemma run_buffers ticks : forall st,
  reactive_value_wrapper (run ticks st) =
    extend (reactive_value_wrapper st) (primary_readings ticks) /\
  reactive_value_wrapper_two (run ticks st) =
    extend (reactive_value_wrapper_two st) (secondary_samples ticks).
Proof.
  induction ticks as [|t ticks IH]; intros st; [split; reflexivity|].
  change (run (t :: ticks) st) with (run ticks (step st t)).
  destruct (IH (step st t)) as [IH1 IH2]. rewrite IH1, IH2.
  destruct t as [inp|env].
  - rewrite step_primary. split; reflexivity.
  - rewrite step_secondary. simpl secondary_samples. simpl primary_readings.
    destruct (appended_rows env) as [rows|]; split; reflexivity.
Qed.

(** X1: after any interleaving of ticks the primary buffer holds the last 5
    readings the primary ticks generated, and the secondary buffer the last
    10 samples the secondary ticks appended, each in order; a tick of one
    feed leaves the buffer of the other alone. *)
Theorem feeds_hold_their_latest :
  forall ticks : list Tick,
    let st := run ticks initial_state in
    items (reactive_value_wrapper st) =
      skipn (length (primary_readings ticks) - DEQUE_SIZE)
            (primary_readings ticks) /\
    items (reactive_value_wrapper_two st) =
      skipn (length (secondary_samples ticks) - DEQUE_SIZE_TWO)
            (secondary_samples ticks).
Proof.
  intros ticks st. subst st.
  destruct (run_buffers ticks initial_state) as [H1 H2].
  rewrite H1, H2. simpl reactive_value_wrapper. simpl reactive_value_wrapper_two.
  split; apply items_extend_empty.
Qed.

(** X2: when the data set loads and is sampled but the frame cannot be
    built, the tick answers with the empty result although the sample is
    already in the buffer: the buffer is the old one with the sample
    appended, and the primary buffer is as before. *)
Theorem failed_frame_keeps_sample :
  forall (env : PenguinEnv) (st : AppState)
         (penguins_df rows : list Penguin) (e : exn),
    load_penguins env = Ok penguins_df ->
    sample env penguins_df 5 = Ok rows ->
    typed_frame env (items (append (reactive_value_wrapper_two st) rows))
      = Raise e ->
    let out := reactive_calc_generate env st in
    fst out = Ok empty_generated /\
    reactive_value_wrapper_two (snd out) =
      append (reactive_value_wrapper_two st) rows /\
    reactive_value_wrapper (snd out) = reactive_value_wrapper st.
Proof.
  intros env st p rows e Hload Hsample Hframe out. subst out.
  unfold reactive_calc_generate, try_except, generate_try,
    bind, call, ret, append_wrapper_two, get_wrapper_two.
  rewrite Hload. cbn beta iota. rewrite Hsample. cbn beta iota.
  cbn [reactive_value_wrapper_two]. rewrite Hframe. cbn.
  repeat split.
Qed.

Lemma failed_frame_keeps_sample_witness :
  let env := positional_columns (repeat sample_penguin 6) in
  let out := reactive_calc_generate env initial_state in
  fst out = Ok empty_generated /\
  reactive_value_wrapper_two (snd out) =
    append (reactive_value_wrapper_two initial_state) (repeat sample_penguin 5) /\
  reactive_value_wrapper (snd out) = reactive_value_wrapper initial_state.
Proof.
  exact (@failed_frame_keeps_sample
           (positional_columns (repeat sample_penguin 6)) initial_state
           (repeat sample_penguin 6) (repeat sample_penguin 5)
           (KeyError "species") eq_refl eq_refl eq_refl).
Defined.

(** the reading of every tick is in the synthetic range *)
Lemma new_entry_in_range (inp : TickInput) :
  in_range_tenths (new_dictionary_entry inp).
Proof.
  unfold in_range_tenths.
  set (drawn := uniform (-18) (-16) (random_bits inp)).
  pose proof (uniform_range (random_bits inp)) as [Hlo Hhi]. fold drawn in Hlo, Hhi.
  assert (Ht : (temp (new_dictionary_entry inp) ==
                inject_Z (round_half_even (drawn * 10)) * (1 # 10))%Q)
    by reflexivity.
  assert (Hk : (-180 <= round_half_even (drawn * 10) <= -160)%Z).
  { apply round_half_even_between.
    change (inject_Z (-180)) with (-180)%Q. change (inject_Z (-160)) with (-160)%Q.
    split; lra. }
  destruct Hk as [K1 K2]. rewrite Zle_Qle in K1, K2.
  change (inject_Z (-180)) with (-180)%Q in K1.
  change (inject_Z (-160)) with (-160)%Q in K2.
  split; [split; lra|].
  exists (round_half_even (drawn * 10)). reflexivity.
Qed.

Lemma Forall_skipn_keep {A} (P : A -> Prop) (l : list A) : forall k,
  Forall P l -> Forall P (skipn k l).
Proof.
  induction l as [|x l IH]; intros [|k] H; simpl; auto.
  apply IH. inversion H; assumption.
Qed.

(** X4: at every moment every reading held in the primary buffer has a
    temperature between -18 and -16 that is a whole number of tenths. *)
Theorem buffer_temps_in_range :
  forall ticks : list Tick,
    Forall in_range_tenths
           (items (reactive_value_wrapper (run ticks initial_state))).
Proof.
  intros ticks.
  destruct (run_buffers ticks initial_state) as [H1 _]. rewrite H1.
  simpl reactive_value_wrapper. rewrite items_extend_empty.
  apply Forall_skipn_keep. unfold primary_readings.
  apply Forall_flat_map, Forall_forall. intros [inp|env] _.
  - constructor; [apply new_entry_in_range | constructor].
  - constructor.
Qed.

(** X5: whenever [display_plot] fetches a fresh reading in a state ticks
    can reach, it raises nothing and returns a figure, never [None]: the two
    traces have one point per buffered reading, between 1 and 5 of them,
    both drawn against the buffer's timestamps. *)
Theorem display_plot_always_draws :
  forall (ticks : list Tick) (inp : TickInput),
    let st := run ticks initial_state in
    let buffer := items (reactive_value_wrapper (snd (display_plot inp st))) in
    exists fig,
      fst (display_plot inp st) = Ok (Some fig) /\
      scatter_y fig = map temp buffer /\
      scatter_x fig = map timestamp buffer /\
      line_x fig = map timestamp buffer /\
      length (line_y fig) = length buffer /\
      1 <= length buffer <= DEQUE_SIZE.
Proof.
  intros ticks inp st buffer.
  assert (Hwf : well_formed st) by apply well_formed_run, well_formed_initial.
  destruct Hwf as [[M1 B1] _].
  assert (Hm : 1 <= maxlen (reactive_value_wrapper st))
    by (rewrite M1; unfold DEQUE_SIZE; lia).
  change (fst (display_plot inp st)) with (plot_trend (DataFrame_of buffer)).
  assert (Hne : buffer <> [])
    by exact (append_nonempty (reactive_value_wrapper st)
                (new_dictionary_entry inp) Hm).
  assert (Hlen : length buffer <= DEQUE_SIZE).
  { pose proof (bounded_append (new_dictionary_entry inp) B1) as Hb.
    unfold bounded, len in Hb. rewrite maxlen_append, M1 in Hb. exact Hb. }
  clearbody buffer. destruct buffer as [|r rest]; [congruence|].
  destruct (trend_fit_total r rest) as (slope & intercept & Hfit).
  eexists. split.
  - apply (@plot_trend_fitted (r :: rest) slope intercept);
      [discriminate | exact Hfit].
  - cbn [scatter_y scatter_x line_x line_y].
    rewrite length_map, length_seq.
    repeat split; try assumption. simpl. lia.
Qed.

(** * Further properties of the fitted line *)

Section NormalEquations.

Local Open Scope Q_scope.

Implicit Types (xs ys : list Q).

(** the residuals of the fit sum to zero, and so do their products with [x] *)
Lemma linregress_normal xs ys x1 x2 :
  length xs = length ys ->
  In x1 xs -> In x2 xs -> ~ x1 == x2 ->
  exists a b,
    linregress xs ys = Ok (Finite a, Finite b) /\
    Qsum (map (fun p => snd p - (a * fst p + b)) (combine xs ys)) == 0 /\
    Qsum (map (fun p => fst p * (snd p - (a * fst p + b))) (combine xs ys)) == 0.
Proof.
  intros Hlen H1 H2 Hne.
  assert (Hpos : (0 < length xs)%nat) by (destruct xs; [contradiction | simpl; lia]).
  assert (Hn : 0 < Q_of_nat (length xs)) by (apply Q_of_nat_pos, Hpos).
  assert (Hss : ~ np_mean (dev_products (np_mean xs) (np_mean xs) xs xs) == 0).
  { intros E. apply Hne. exact (@ssxm_zero_all_equal xs x1 x2 E H1 H2). }
  unfold linregress.
  replace (length xs =? 0)%nat with false by (symmetry; apply Nat.eqb_neq; lia).
  replace (length ys =? 0)%nat with false by (symmetry; apply Nat.eqb_neq; lia).
  replace (Qeq_bool (np_amax xs) (np_amin xs)) with false.
  2:{ symmetry. apply not_true_is_false. intros E. apply Qeq_bool_iff in E.
      pose proof (@np_amax_ge xs x1 H1). pose proof (@np_amax_ge xs x2 H2).
      pose proof (@np_amin_le xs x1 H1). pose proof (@np_amin_le xs x2 H2).
      apply Hne. lra. }
  replace (length xs =? length ys)%nat with true by (symmetry; apply Nat.eqb_eq, Hlen).
  cbn [orb andb negb]. unfold fdiv.
  replace (Qeq_bool (np_mean (dev_products (np_mean xs) (np_mean xs) xs xs)) 0)
    with false.
  2:{ symmetry. apply not_true_is_false. intros E. apply Qeq_bool_iff in E.
      contradiction. }
  cbn [fmul fsub].
  set (xm := np_mean xs) in *. set (ym := np_mean ys).
  set (ssxm := np_mean (dev_products xm xm xs xs)) in *.
  set (ssxym := np_mean (dev_products xm ym xs ys)).
  exists (ssxym / ssxm), (ym - ssxym / ssxm * xm). split; [reflexivity|].
  set (a := ssxym / ssxm).
  set (ps := combine xs ys).
  assert (SR0 : Qsum (map (fun p => snd p - (a * fst p + (ym - a * xm))) ps) == 0).
  { rewrite residual_sum. unfold ps.
    rewrite map_snd_combine_eq, map_fst_combine_eq, length_combine_eq by assumption.
    unfold ym, xm, np_mean. rewrite <- Hlen. field. lra. }
  split; [exact SR0|].
  rewrite residual_moment, SR0.
  assert (Cxy : Qsum (map (fun p => (fst p - xm) * (snd p - ym)) ps)
                == ssxym * Q_of_nat (length xs)).
  { unfold ssxym, np_mean. rewrite length_dev_products by assumption.
    rewrite dev_products_combine. fold ps. field. lra. }
  assert (Cxx : Qsum (map (fun p => (fst p - xm) * (fst p - xm)) ps)
                == ssxm * Q_of_nat (length xs)).
  { unfold ssxm, np_mean. rewrite length_dev_products by reflexivity.
    rewrite (dev_products_self xm xs ys Hlen). fold ps. field. lra. }
  rewrite Cxy, Cxx. unfold a. field. exact Hss.
Qed.

(** the squared residuals of any other line exceed those of the fit by the
    squared distance between the two lines *)
Lemma trend_fit_gap (r1 r2 : Reading) (rest : list Reading) :
  let buffer := r1 :: r2 :: rest in
  let xs := map Q_of_nat (seq 0 (length buffer)) in
  let ys := map temp buffer in
  exists a b,
    trend_fit buffer = Ok (Finite a, Finite b) /\
    Qsum (map (fun p => snd p - (a * fst p + b)) (combine xs ys)) == 0 /\
    forall a' b',
      sse a' b' xs ys ==
      sse a b xs ys +
      Qsum (map (fun p => ((a - a') * fst p + (b - b')) *
                          ((a - a') * fst p + (b - b'))) (combine xs ys)).
Proof.
  intros buffer xs ys.
  destruct (@linregress_normal xs ys (Q_of_nat 0) (Q_of_nat 1))
    as (a & b & Hfit & SR0 & SRX0).
  - subst xs ys. rewrite !length_map, length_seq. reflexivity.
  - left. reflexivity.
  - right. left. reflexivity.
  - discriminate.
  - exists a, b. split; [exact Hfit|]. split; [exact SR0|].
    intros a' b'. unfold sse.
    rewrite (@sse_expand a b a' b' (combine xs ys)), SR0, SRX0. ring.
Qed.

End NormalEquations.

Section FittedLine.

Local Open Scope Q_scope.

(** a line that does as well as the fit is the fit *)
Lemma fit_unique (r1 r2 : Reading) (rest : list Reading) (a b a' b' : Q) :
  trend_fit (r1 :: r2 :: rest) = Ok (Finite a, Finite b) ->
  sse a' b' (map Q_of_nat (seq 0 (length (r1 :: r2 :: rest))))
            (map temp (r1 :: r2 :: rest))
  <= sse a b (map Q_of_nat (seq 0 (length (r1 :: r2 :: rest))))
             (map temp (r1 :: r2 :: rest)) ->
  a' == a /\ b' == b.
Proof.
  intros Hfit Hle.
  destruct (trend_fit_gap r1 r2 rest) as (a0 & b0 & Hfit0 & _ & Hgap).
  rewrite Hfit in Hfit0. injection Hfit0 as <- <-.
  specialize (Hgap a' b').
  set (ps := combine (map Q_of_nat (seq 0 (length (r1 :: r2 :: rest))))
                     (map temp (r1 :: r2 :: rest))) in *.
  pose proof (sum_squares_nonneg
                (fun p => (a - a') * fst p + (b - b')) ps) as Hsq.
  cbv beta in Hsq.
  assert (Hz : Qsum (map (fun p => ((a - a') * fst p + (b - b')) *
                                   ((a - a') * fst p + (b - b'))) ps) == 0)
    by lra.
  pose proof (sum_squares_zero (fun p => (a - a') * fst p + (b - b')) ps Hz)
    as Hall.
  assert (H0 : In (Q_of_nat 0, temp r1) ps) by (left; reflexivity).
  assert (H1 : In (Q_of_nat 1, temp r2) ps) by (right; left; reflexivity).
  apply Hall in H0. apply Hall in H1. cbn [fst snd] in H0, H1.
  change (Q_of_nat 0) with 0 in H0. change (Q_of_nat 1) with 1 in H1.
  split; lra.
Qed.

(** readings on the line [m * i + c] leave no residual for that line *)
Lemma sse_zero_of_collinear (m c : Q) (buffer : list Reading) : forall s,
  Forall2 (fun r i => temp r == line_at m c i) buffer (seq s (length buffer)) ->
  sse m c (map Q_of_nat (seq s (length buffer))) (map temp buffer) == 0.
Proof.
  induction buffer as [|r buffer IH]; intros s H; [reflexivity|].
  cbn [length seq] in H. inversion H as [|? ? ? ? Hhead Htail]; subst.
  specialize (IH _ Htail). unfold sse in *. cbn [length seq map combine Qsum fold_right fst snd].
  change (fold_right Qplus 0 ?l) with (Qsum l).
  rewrite IH, Hhead. unfold line_at. ring.
Qed.

Lemma residuals_split (f : Q -> Q) (xs : list Q) : forall ys,
  length xs = length ys ->
  Qsum (map (fun p => snd p - f (fst p)) (combine xs ys))
  == Qsum ys - Qsum (map f xs).
Proof.
  induction xs as [|x xs IH]; intros [|y ys] H; simpl in *;
    try discriminate; [ring|].
  change (fold_right Qplus 0 ?l) with (Qsum l).
  rewrite IH by congruence. ring.
Qed.

(** X6: in exact arithmetic, for two or more readings the slope and
    intercept that the fit's formulas give are those of the only
    least-squares line: a line whose squared residuals are not larger has
    the same slope and intercept. *)
Theorem trend_fit_is_unique :
  forall (r1 r2 : Reading) (rest : list Reading) (a b a' b' : Q),
    trend_fit (r1 :: r2 :: rest) = Ok (Finite a, Finite b) ->
    sse a' b' (map Q_of_nat (seq 0 (length (r1 :: r2 :: rest))))
              (map temp (r1 :: r2 :: rest))
    <= sse a b (map Q_of_nat (seq 0 (length (r1 :: r2 :: rest))))
               (map temp (r1 :: r2 :: rest)) ->
    a' == a /\ b' == b.
Proof. intros r1 r2 rest a b a' b'. apply fit_unique. Qed.

Lemma trend_fit_is_unique_witness :
  (1 # 2) == (128000 # 256000) /\ (-17) == (-174080000 # 10240000).
Proof.
  apply (@trend_fit_is_unique
           {| temp := -17; timestamp := "2024-06-01 12:00:00" |}
           {| temp := -165 # 10; timestamp := "2024-06-01 12:00:10" |} []
           (128000 # 256000) (-174080000 # 10240000) (1 # 2) (-17)).
  - reflexivity.
  - vm_compute. discriminate.
Defined.

(** X7: when the readings lie exactly on a line m * i + c over their
    indices (two or more of them), the fit recovers that line: slope m,
    intercept c, and the trend line passes through every reading. *)
Theorem collinear_readings_fit_exactly :
  forall (r1 r2 : Reading) (rest : list Reading) (m c : Q),
    Forall2 (fun r i => temp r == line_at m c i)
            (r1 :: r2 :: rest) (seq 0 (length (r1 :: r2 :: rest))) ->
    exists a b,
      trend_fit (r1 :: r2 :: rest) = Ok (Finite a, Finite b) /\
      (a == m /\ b == c) /\
      trend_line (r1 :: r2 :: rest) =
        Ok (Some (map (fun i => Finite (line_at a b i))
                      (seq 0 (length (r1 :: r2 :: rest))))) /\
      Forall2 (fun r i => line_at a b i == temp r)
              (r1 :: r2 :: rest) (seq 0 (length (r1 :: r2 :: rest))).
Proof.
  intros r1 r2 rest m c Hcol.
  destruct (trend_fit_gap r1 r2 rest) as (a & b & Hfit & _ & _).
  exists a, b. split; [exact Hfit|].
  assert (Hab : m == a /\ c == b).
  { apply (@fit_unique r1 r2 rest a b m c Hfit).
    rewrite (@sse_zero_of_collinear m c (r1 :: r2 :: rest) 0%nat Hcol). unfold sse.
    apply (sum_squares_nonneg (fun p => snd p - (a * fst p + b))). }
  destruct Hab as [Ha Hb].
  split; [split; symmetry; assumption|].
  split.
  - unfold trend_line.
    rewrite (@plot_trend_fitted (r1 :: r2 :: rest) _ _ ltac:(discriminate) Hfit).
    reflexivity.
  - revert Hcol. generalize (seq 0 (length (r1 :: r2 :: rest))).
    generalize (r1 :: r2 :: rest). intros l l' H.
    induction H as [|r i l l' Hri H IH]; constructor; [|exact IH].
    rewrite Hri. unfold line_at. rewrite Ha, Hb. reflexivity.
Qed.

Lemma collinear_readings_fit_exactly_witness :
  exists a b,
    trend_fit [ {| temp := -18; timestamp := "2024-06-01 12:00:00" |};
                {| temp := -175 # 10; timestamp := "2024-06-01 12:00:10" |};
                {| temp := -17; timestamp := "2024-06-01 12:00:20" |} ]
      = Ok (Finite a, Finite b) /\
    (a == 1 # 2 /\ b == -18) /\
    trend_line [ {| temp := -18; timestamp := "2024-06-01 12:00:00" |};
                 {| temp := -175 # 10; timestamp := "2024-06-01 12:00:10" |};
                 {| temp := -17; timestamp := "2024-06-01 12:00:20" |} ]
      = Ok (Some (map (fun i => Finite (line_at a b i)) (seq 0 3))) /\
    Forall2 (fun r i => line_at a b i == temp r)
            [ {| temp := -18; timestamp := "2024-06-01 12:00:00" |};
              {| temp := -175 # 10; timestamp := "2024-06-01 12:00:10" |};
              {| temp := -17; timestamp := "2024-06-01 12:00:20" |} ]
            (seq 0 3).
Proof.
  apply (@collinear_readings_fit_exactly
           {| temp := -18; timestamp := "2024-06-01 12:00:00" |}
           {| temp := -175 # 10; timestamp := "2024-06-01 12:00:10" |}
           [ {| temp := -17; timestamp := "2024-06-01 12:00:20" |} ]
           (1 # 2) (-18)).
  repeat constructor.
Defined.

(** X8: in exact arithmetic, for two or more readings the values of the
    trend line that the trend computation returns add up to the sum of the
    temperatures: the residuals cancel, so the line passes through the mean
    of the readings. *)
Theorem trend_line_keeps_the_sum :
  forall (r1 r2 : Reading) (rest : list Reading),
    let buffer := r1 :: r2 :: rest in
    exists values : list Q,
      trend_line buffer = Ok (Some (map Finite values)) /\
      length values = length buffer /\
      Qsum values == Qsum (map temp buffer).
Proof.
  intros r1 r2 rest buffer.
  destruct (trend_fit_gap r1 r2 rest) as (a & b & Hfit & SR0 & _).
  exists (map (line_at a b) (seq 0 (length buffer))).
  split; [|split].
  - unfold trend_line.
    rewrite (@plot_trend_fitted buffer _ _ ltac:(discriminate) Hfit).
    cbn [line_y]. rewrite map_map. reflexivity.
  - rewrite length_map, length_seq. reflexivity.
  - fold buffer in SR0.
    rewrite (residuals_split (fun x => a * x + b)) in SR0
      by (rewrite !length_map, length_seq; reflexivity).
    rewrite map_map in SR0.
    change (fun x : nat => a * Q_of_nat x + b) with (line_at a b) in SR0.
    lra.
Qed.

End FittedLine.

(** X9: the buffers fill up and then stay full: after any run the primary
    buffer holds as many readings as there were primary ticks, up to 5, and
    the secondary buffer as many samples as were appended, up to 10. *)
Theorem buffers_fill_to_capacity :
  forall ticks : list Tick,
    let st := run ticks initial_state in
    len (reactive_value_wrapper st) =
      Nat.min (length (primary_readings ticks)) DEQUE_SIZE /\
    len (reactive_value_wrapper_two st) =
      Nat.min (length (secondary_samples ticks)) DEQUE_SIZE_TWO.
Proof.
  intros ticks st. subst st. unfold len.
  destruct (run_buffers ticks initial_state) as [H1 H2].
  rewrite H1, H2. simpl reactive_value_wrapper. simpl reactive_value_wrapper_two.
  rewrite !items_extend_empty, !length_skipn. lia.
Qed.
